(** * tcp-sniffer: a shallow embedding of [main.c]

    The program opens a raw packet socket and, in an endless loop, reads one
    link-layer frame into a 65536-byte buffer and prints the Ethernet, IPv4
    and TCP headers found in that buffer.

    The embedding follows the C source function by function.

    - The malloc'd buffer is a [list byte]; its initial contents are
      arbitrary (every theorem quantifies over them).
    - [struct ethhdr], [struct iphdr] and [struct tcphdr] are the Linux/glibc
      layouts; a field access [p->f] becomes a read at the field's offset.
    - Multi-byte fields are loaded in the byte order of the host, which is a
      parameter ([byte_order]) of every function that depends on it;
      [ntohs]/[ntohl] are the libc conversions for that host.
    - [printf] is modelled by the values handed to it: one record per
      printed header, appended to the trace of the process.
    - [recvfrom] is the environment: each call consumes one [recv_result]. *)

From Stdlib Require Import ZArith List Lia Bool String Ascii.
From Stdlib Require Import Strings.Byte.
Import ListNotations.
Local Open Scope Z_scope.

(** ** Memory *)

Definition BUF_SIZE : Z := 65536.

(** [sizeof(struct ethhdr)] *)
Definition ETH_HLEN : Z := 14.

Inductive byte_order : Type := LittleEndian | BigEndian.

(** The unsigned value of the byte at offset [off].  Offsets past the end of
    the list read as zero; [reads_stay_in_buffer] below shows the program
    never gets there with a buffer of [BUF_SIZE] bytes. *)
Definition u8_at (buf : list byte) (off : Z) : Z :=
  Z.of_N (Byte.to_N (nth (Z.to_nat off) buf x00)).

(** A 16-bit load, as the host performs it. *)
Definition u16_at (e : byte_order) (buf : list byte) (off : Z) : Z :=
  match e with
  | LittleEndian => Z.lor (u8_at buf off) (Z.shiftl (u8_at buf (off + 1)) 8)
  | BigEndian => Z.lor (Z.shiftl (u8_at buf off) 8) (u8_at buf (off + 1))
  end.

(** A 32-bit load, as the host performs it. *)
Definition u32_at (e : byte_order) (buf : list byte) (off : Z) : Z :=
  match e with
  | LittleEndian =>
      Z.lor (u16_at e buf off) (Z.shiftl (u16_at e buf (off + 2)) 16)
  | BigEndian =>
      Z.lor (Z.shiftl (u16_at e buf off) 16) (u16_at e buf (off + 2))
  end.

(** ** Byte-order conversion (arpa/inet.h) *)

Definition bswap_16 (x : Z) : Z :=
  Z.lor (Z.land (Z.shiftr x 8) 255) (Z.shiftl (Z.land x 255) 8).

Definition bswap_32 (x : Z) : Z :=
  Z.lor (Z.lor (Z.land (Z.shiftr x 24) 255)
               (Z.shiftl (Z.land (Z.shiftr x 16) 255) 8))
        (Z.lor (Z.shiftl (Z.land (Z.shiftr x 8) 255) 16)
               (Z.shiftl (Z.land x 255) 24)).

Definition ntohs (e : byte_order) (x : Z) : Z :=
  match e with LittleEndian => bswap_16 x | BigEndian => x end.

Definition ntohl (e : byte_order) (x : Z) : Z :=
  match e with LittleEndian => bswap_32 x | BigEndian => x end.

(** [inet_ntoa] renders the four bytes of [s_addr] in the order they lie in
    memory; the model returns the four numbers of the dotted quad. *)
Definition inet_ntoa (e : byte_order) (s_addr : Z) : list Z :=
  let b0 := Z.land s_addr 255 in
  let b1 := Z.land (Z.shiftr s_addr 8) 255 in
  let b2 := Z.land (Z.shiftr s_addr 16) 255 in
  let b3 := Z.land (Z.shiftr s_addr 24) 255 in
  match e with
  | LittleEndian => [b0; b1; b2; b3]
  | BigEndian => [b3; b2; b1; b0]
  end.

(** The value a network-order field of two (four) bytes stands for. *)
Definition be16 (buf : list byte) (off : Z) : Z :=
  256 * u8_at buf off + u8_at buf (off + 1).

Definition be32 (buf : list byte) (off : Z) : Z :=
  65536 * be16 buf off + be16 buf (off + 2).

(** ** Header structures

    A pointer is an offset [p] into the buffer.  The bit-field members are
    declared in the system headers in the order that puts them, on either
    byte order, at the same bits of their byte: [ihl] is the low and
    [version] the high nibble of the first IPv4 byte; [doff] is the high
    nibble of TCP byte 12 and the flags are the low six bits of byte 13. *)

Module ethhdr.
Definition h_dest (buf : list byte) (p i : Z) : Z := u8_at buf (p + i).
Definition h_source (buf : list byte) (p i : Z) : Z := u8_at buf (p + 6 + i).
Definition h_proto (e : byte_order) (buf : list byte) (p : Z) : Z :=
  u16_at e buf (p + 12).
End ethhdr.

Module iphdr.
Definition ihl (buf : list byte) (p : Z) : Z := Z.land (u8_at buf p) 15.
Definition version (buf : list byte) (p : Z) : Z := Z.shiftr (u8_at buf p) 4.
Definition tos (buf : list byte) (p : Z) : Z := u8_at buf (p + 1).
Definition tot_len (e : byte_order) (buf : list byte) (p : Z) : Z :=
  u16_at e buf (p + 2).
Definition id (e : byte_order) (buf : list byte) (p : Z) : Z :=
  u16_at e buf (p + 4).
Definition frag_off (e : byte_order) (buf : list byte) (p : Z) : Z :=
  u16_at e buf (p + 6).
Definition ttl (buf : list byte) (p : Z) : Z := u8_at buf (p + 8).
Definition protocol (buf : list byte) (p : Z) : Z := u8_at buf (p + 9).
Definition check (e : byte_order) (buf : list byte) (p : Z) : Z :=
  u16_at e buf (p + 10).
Definition saddr (e : byte_order) (buf : list byte) (p : Z) : Z :=
  u32_at e buf (p + 12).
Definition daddr (e : byte_order) (buf : list byte) (p : Z) : Z :=
  u32_at e buf (p + 16).
End iphdr.

Module tcphdr.
Definition source (e : byte_order) (buf : list byte) (p : Z) : Z :=
  u16_at e buf p.
Definition dest (e : byte_order) (buf : list byte) (p : Z) : Z :=
  u16_at e buf (p + 2).
Definition seq (e : byte_order) (buf : list byte) (p : Z) : Z :=
  u32_at e buf (p + 4).
Definition ack_seq (e : byte_order) (buf : list byte) (p : Z) : Z :=
  u32_at e buf (p + 8).
Definition doff (buf : list byte) (p : Z) : Z :=
  Z.shiftr (u8_at buf (p + 12)) 4.
Definition flag (bit : Z) (buf : list byte) (p : Z) : Z :=
  Z.land (Z.shiftr (u8_at buf (p + 13)) bit) 1.
Definition fin := flag 0.
Definition syn := flag 1.
Definition rst := flag 2.
Definition psh := flag 3.
Definition ack := flag 4.
Definition urg := flag 5.
Definition window (e : byte_order) (buf : list byte) (p : Z) : Z :=
  u16_at e buf (p + 14).
Definition check (e : byte_order) (buf : list byte) (p : Z) : Z :=
  u16_at e buf (p + 16).
Definition urg_ptr (e : byte_order) (buf : list byte) (p : Z) : Z :=
  u16_at e buf (p + 18).
End tcphdr.

(** ** What the program prints

    One record per header block; each field is the argument of the [printf]
    line named in its comment. *)

Record eth_report : Type := {
  eth_destination : list Z;      (* Destination Address, six %.2X *)
  eth_source : list Z;           (* Source Address, six %.2X *)
  eth_protocol : Z               (* Protocol, %u *)
}.

Record ip_report : Type := {
  ip_version : Z;                (* IP Version *)
  ip_header_dwords : Z;          (* IP Header Length, DWORDS *)
  ip_header_bytes : Z;           (* IP Header Length, Bytes *)
  ip_tos : Z;                    (* Type Of Service *)
  ip_total_length : Z;           (* IP Total Length *)
  ip_identification : Z;         (* Identification *)
  ip_ttl : Z;                    (* TTL *)
  ip_protocol : Z;               (* Protocol *)
  ip_checksum : Z;               (* Checksum *)
  ip_source : list Z;            (* Source IP, dotted quad *)
  ip_destination : list Z        (* Destination IP, dotted quad *)
}.

Record tcp_report : Type := {
  tcp_source_port : Z;           (* Source Port *)
  tcp_destination_port : Z;      (* Destination Port *)
  tcp_sequence : Z;              (* Sequence Number *)
  tcp_acknowledge : Z;           (* Acknowledge Number *)
  tcp_header_dwords : Z;         (* Header Length, DWORDS *)
  tcp_header_bytes : Z;          (* Header Length, BYTES *)
  tcp_urg : Z;                   (* Urgent Flag *)
  tcp_ack : Z;                   (* Acknowledgement Flag *)
  tcp_psh : Z;                   (* Push Flag *)
  tcp_rst : Z;                   (* Reset Flag *)
  tcp_syn : Z;                   (* Synchronise Flag *)
  tcp_fin : Z;                   (* Finish Flag *)
  tcp_window : Z;                (* Window *)
  tcp_checksum : Z;              (* Checksum *)
  tcp_urgent_pointer : Z         (* Urgent Pointer *)
}.

Inductive output : Type :=
| EthernetHeader (r : eth_report)
| IPHeader (r : ip_report)
| TCPHeader (r : tcp_report)
| Stderr (line : string).

(** The process: the capture buffer and everything printed so far. *)
Record world : Type := {
  buffer : list byte;
  trace : list output
}.

Definition emit (o : output) (w : world) : world :=
  {| buffer := buffer w; trace := trace w ++ [o] |}.

(** ** The three printing functions

    Each receives the buffer pointer itself (offset 0) and finds its own
    header. *)

Definition ethernet_fields (e : byte_order) (buf : list byte) : eth_report :=
  let eth := 0 in
  {| eth_destination := map (ethhdr.h_dest buf eth) [0; 1; 2; 3; 4; 5];
     eth_source := map (ethhdr.h_source buf eth) [0; 1; 2; 3; 4; 5];
     eth_protocol := ethhdr.h_proto e buf eth |}.

Definition print_ethernet_header (e : byte_order) (w : world) : world :=
  emit (EthernetHeader (ethernet_fields e (buffer w))) w.

Definition ip_fields (e : byte_order) (buf : list byte) : ip_report :=
  let ip := 0 + ETH_HLEN in
  let source := iphdr.saddr e buf ip in
  let dest := iphdr.daddr e buf ip in
  {| ip_version := iphdr.version buf ip;
     ip_header_dwords := iphdr.ihl buf ip;
     ip_header_bytes := iphdr.ihl buf ip * 4;
     ip_tos := iphdr.tos buf ip;
     ip_total_length := ntohs e (iphdr.tot_len e buf ip);
     ip_identification := ntohs e (iphdr.id e buf ip);
     ip_ttl := iphdr.ttl buf ip;
     ip_protocol := iphdr.protocol buf ip;
     ip_checksum := ntohs e (iphdr.check e buf ip);
     ip_source := inet_ntoa e source;
     ip_destination := inet_ntoa e dest |}.

Definition print_ip_header (e : byte_order) (w : world) : world :=
  emit (IPHeader (ip_fields e (buffer w))) w.

(** Where [print_tcp_packet] points its [struct tcphdr *]. *)
Definition tcp_offset (buf : list byte) : Z :=
  let ip := 0 + ETH_HLEN in
  0 + iphdr.ihl buf ip * 4 + ETH_HLEN.

Definition tcp_fields (e : byte_order) (buf : list byte) : tcp_report :=
  let tcp := tcp_offset buf in
  {| tcp_source_port := ntohs e (tcphdr.source e buf tcp);
     tcp_destination_port := ntohs e (tcphdr.dest e buf tcp);
     tcp_sequence := ntohl e (tcphdr.seq e buf tcp);
     tcp_acknowledge := ntohl e (tcphdr.ack_seq e buf tcp);
     tcp_header_dwords := tcphdr.doff buf tcp;
     tcp_header_bytes := tcphdr.doff buf tcp * 4;
     tcp_urg := tcphdr.urg buf tcp;
     tcp_ack := tcphdr.ack buf tcp;
     tcp_psh := tcphdr.psh buf tcp;
     tcp_rst := tcphdr.rst buf tcp;
     tcp_syn := tcphdr.syn buf tcp;
     tcp_fin := tcphdr.fin buf tcp;
     tcp_window := ntohs e (tcphdr.window e buf tcp);
     tcp_checksum := ntohs e (tcphdr.check e buf tcp);
     tcp_urgent_pointer := tcphdr.urg_ptr e buf tcp |}.

Definition print_tcp_packet (e : byte_order) (w : world) : world :=
  emit (TCPHeader (tcp_fields e (buffer w))) w.

(** ** The capture loop *)

(** What one call of [recvfrom] delivers: a failure ([-1], with [errno]
    set), or the bytes of one frame (possibly none). *)
Inductive recv_result : Type :=
| RecvError (errno : Z)
| RecvData (data : list byte).

(** The first [n] elements of [l]. *)
Fixpoint take_bytes (n : Z) (l : list byte) : list byte :=
  match l with
  | [] => []
  | b :: l' => if n <=? 0 then [] else b :: take_bytes (n - 1) l'
  end.

(** [recvfrom(raw_socket, buffer, BUF_SIZE, ...)]: at most [BUF_SIZE] bytes
    of the frame overwrite the front of the buffer, the rest of the buffer
    keeps what it held; the return value is the number of bytes stored. *)
Definition recvfrom (r : recv_result) (buf : list byte) : Z * list byte :=
  match r with
  | RecvError _ => (-1, buf)
  | RecvData data =>
      let stored := take_bytes BUF_SIZE data in
      (Z.of_nat (List.length stored),
       stored ++ skipn (List.length stored) buf)
  end.

Inductive status : Type :=
| Running
| Returned (code : Z)
| Exited (code : Z).

Definition newline : string := String (ascii_of_nat 10) EmptyString.

(** One pass through the body of [while (1)]. *)
Definition loop_body (e : byte_order) (r : recv_result) (w : world)
  : status * world :=
  let '(msg_len, buf) := recvfrom r (buffer w) in
  let w := {| buffer := buf; trace := trace w |} in
  if msg_len <? 0 then
    (Returned (-1),
     emit (Stderr ("No data received due to error" ++ newline)%string) w)
  else
    let w := print_ethernet_header e w in
    let w := print_ip_header e w in
    let w := print_tcp_packet e w in
    (Running, w).

(** The loop, driven by the results of the successive [recvfrom] calls.
    When they are used up the process is still [Running], blocked in the
    next call. *)
Fixpoint main_loop (e : byte_order) (rs : list recv_result) (w : world)
  : status * world :=
  match rs with
  | [] => (Running, w)
  | r :: rs' =>
      match loop_body e r w with
      | (Running, w') => main_loop e rs' w'
      | (stopped, w') => (stopped, w')
      end
  end.

Definition EXIT_FAILURE : Z := 1.

(** [main]: [raw_socket] is what [socket] returned, [heap] what the
    malloc'd buffer happens to hold, [rs] what the reads will deliver. *)
Definition main (e : byte_order) (raw_socket : Z) (heap : list byte)
  (rs : list recv_result) : status * world :=
  let w := {| buffer := heap; trace := [] |} in
  if raw_socket <? 0 then
    (Exited EXIT_FAILURE,
     emit (Stderr ("Failed to create raw socket" ++ newline)%string) w)
  else main_loop e rs w.

(** The three printing calls of one pass, on their own. *)
Definition print_headers (e : byte_order) (w : world) : world :=
  print_tcp_packet e (print_ip_header e (print_ethernet_header e w)).

(** ** Reading the trace *)

Fixpoint eth_views (t : list output) : list eth_report :=
  match t with
  | [] => []
  | EthernetHeader r :: t' => r :: eth_views t'
  | _ :: t' => eth_views t'
  end.

Fixpoint ip_views (t : list output) : list ip_report :=
  match t with
  | [] => []
  | IPHeader r :: t' => r :: ip_views t'
  | _ :: t' => ip_views t'
  end.

Fixpoint tcp_views (t : list output) : list tcp_report :=
  match t with
  | [] => []
  | TCPHeader r :: t' => r :: tcp_views t'
  | _ :: t' => tcp_views t'
  end.

Fixpoint diagnostics (t : list output) : list string :=
  match t with
  | [] => []
  | Stderr s :: t' => s :: diagnostics t'
  | _ :: t' => diagnostics t'
  end.

(** Two buffers hold the same bytes at the offsets from [lo] up to [hi]. *)
Definition agree_on (lo hi : Z) (b1 b2 : list byte) : Prop :=
  forall off, lo <= off < hi -> u8_at b1 off = u8_at b2 off.

(** The buffer once [recvfrom] has stored the frame [data] in it. *)
Definition received (data buf : list byte) : list byte :=
  snd (recvfrom (RecvData data) buf).

(** The header blocks printed from a buffer. *)
Definition header_blocks (e : byte_order) (buf : list byte) : list output :=
  [EthernetHeader (ethernet_fields e buf);
   IPHeader (ip_fields e buf);
   TCPHeader (tcp_fields e buf)].

(** ** Sample data *)

(** A fresh buffer (here: all zero; the program does not initialise it). *)
Definition blank_buffer : list byte := repeat x00 (Z.to_nat BUF_SIZE).

Definition boot : world := {| buffer := blank_buffer; trace := [] |}.

(** 00:11:22:33:44:55 <- 66:77:88:99:aa:bb, ether-type 0x0800 *)
Definition sample_eth : list byte :=
  [x00; x11; x22; x33; x44; x55; x66; x77; x88; x99; xaa; xbb; x08; x00].

(** An IPv4 header whose first byte is [vihl] and whose protocol is [proto]:
    total length 40, id 0x1c46, DF, TTL 64,
    192.168.0.1 -> 192.168.0.199. *)
Definition sample_ip (vihl proto : byte) : list byte :=
  [vihl; x00; x00; x28; x1c; x46; x40; x00; x40; proto; xb1; xe6;
   xc0; xa8; x00; x01; xc0; xa8; x00; xc7].

(** A TCP header without options: port 50000 -> 80, sequence number 1,
    data offset 5, the given flags byte, window 0x7210 and the given
    urgent pointer (low byte). *)
Definition sample_tcp (flags urg_lo : byte) : list byte :=
  [xc3; x50; x00; x50; x00; x00; x00; x01; x00; x00; x00; x00;
   x50; flags; x72; x10; xe0; x3d; x00; urg_lo].

(** The 54-byte SYN segment. *)
Definition syn_frame : list byte :=
  sample_eth ++ sample_ip x45 x06 ++ sample_tcp x02 x00.

(** The same segment with URG and ACK set and urgent pointer 1. *)
Definition urg_frame : list byte :=
  sample_eth ++ sample_ip x45 x06 ++ sample_tcp x30 x01.

(** A UDP datagram (protocol 17) of the same size. *)
Definition udp_frame : list byte :=
  sample_eth ++ sample_ip x45 x11 ++ sample_tcp x02 x00.

(** A frame whose IPv4 byte claims a header of two words. *)
Definition ihl2_frame : list byte :=
  sample_eth ++ sample_ip x42 x06 ++ sample_tcp x02 x00.

(** A 58-byte SYN segment whose TCP header carries one option (maximum
    segment size): port 0x5550 -> 80, data offset 6.  [frag_hi] is the
    first fragment byte of the IPv4 header (frame byte 20), [mss_lo] the
    last option byte (frame byte 57). *)
Definition options_segment (frag_hi mss_lo : byte) : list byte :=
  sample_eth ++
  [x45; x00; x00; x2c; x1c; x46; frag_hi; x00; x40; x06; xb1; xe2;
   xc0; xa8; x00; x01; xc0; xa8; x00; xc7] ++
  [x55; x50; x00; x50; x00; x00; x00; x01; x00; x00; x00; x00;
   x60; x02; x72; x10; xe0; x3d; x00; x00; x02; x04; x05; mss_lo].

(** Five bytes: not even an Ethernet header. *)
Definition runt_frame : list byte := [xde; xad; xbe; xef; x01].

(** [errno] values of reads that merely were interrupted or found nothing. *)
Definition EINTR : Z := 4.
Definition EAGAIN : Z := 11.

(** ** Vocabulary for the further properties *)

(** The values an unsigned field of 8, 16 or 32 bits can take. *)
Definition is_u8 (z : Z) : Prop := 0 <= z < 256.
Definition is_u16 (z : Z) : Prop := 0 <= z < 65536.
Definition is_u32 (z : Z) : Prop := 0 <= z < 4294967296.
Definition is_bit (z : Z) : Prop := z = 0 \/ z = 1.

Definition is_error (r : recv_result) : bool :=
  match r with RecvError _ => true | RecvData _ => false end.

(** How many reads deliver data before the first one fails. *)
Fixpoint reads_before_failure (rs : list recv_result) : nat :=
  match rs with
  | RecvData _ :: rs' => S (reads_before_failure rs')
  | _ => O
  end.

(** The frames delivered before the first read fails. *)
Fixpoint frames_before_failure (rs : list recv_result) : list (list byte) :=
  match rs with
  | RecvData data :: rs' => data :: frames_before_failure rs'
  | _ => []
  end.

(** ** Bytes and byte order *)

Lemma u8_at_range (buf : list byte) (off : Z) : 0 <= u8_at buf off < 256.
Proof.
  unfold u8_at.
  pose proof (Byte.to_N_bounded (nth (Z.to_nat off) buf x00)) as H.
  lia.
Qed.

Lemma lor_shiftl_small (a b n : Z) :
  0 <= n -> 0 <= b < 2 ^ n -> Z.lor (Z.shiftl a n) b = a * 2 ^ n + b.
Proof.
  intros Hn Hb.
  assert (Hdisjoint : Z.land (Z.shiftl a n) b = 0).
  { apply Z.bits_inj'; intros i Hi.
    rewrite Z.land_spec, Z.bits_0.
    destruct (Z_lt_le_dec i n) as [Hlt | Hge].
    - rewrite Z.shiftl_spec_low by assumption. reflexivity.
    - rewrite <- (Z.mod_small b (2 ^ n)) by assumption.
      rewrite Z.mod_pow2_bits_high by lia.
      apply andb_false_r. }
  pose proof (Z.add_lor_land (Z.shiftl a n) b) as Hsum.
  rewrite Hdisjoint, Z.shiftl_mul_pow2 in Hsum by assumption.
  rewrite Z.shiftl_mul_pow2 by assumption.
  lia.
Qed.

Lemma land_255 (x : Z) : Z.land x 255 = x mod 256.
Proof. change 255 with (Z.ones 8). now rewrite Z.land_ones by lia. Qed.

Lemma land_15 (x : Z) : Z.land x 15 = x mod 16.
Proof. change 15 with (Z.ones 4). now rewrite Z.land_ones by lia. Qed.

Lemma land_1 (x : Z) : Z.land x 1 = x mod 2.
Proof. change 1 with (Z.ones 1). now rewrite Z.land_ones by lia. Qed.

Lemma u16_at_little (buf : list byte) (off : Z) :
  u16_at LittleEndian buf off = u8_at buf off + 256 * u8_at buf (off + 1).
Proof.
  unfold u16_at. pose proof (u8_at_range buf off).
  rewrite Z.lor_comm, lor_shiftl_small; lia.
Qed.

Lemma u16_at_big (buf : list byte) (off : Z) :
  u16_at BigEndian buf off = be16 buf off.
Proof.
  unfold u16_at, be16. pose proof (u8_at_range buf (off + 1)).
  rewrite lor_shiftl_small; lia.
Qed.

Lemma be16_range (buf : list byte) (off : Z) : 0 <= be16 buf off < 65536.
Proof.
  unfold be16.
  pose proof (u8_at_range buf off); pose proof (u8_at_range buf (off + 1)).
  lia.
Qed.

Lemma bswap_16_bytes (a b : Z) :
  0 <= a < 256 -> 0 <= b < 256 -> bswap_16 (a + 256 * b) = 256 * a + b.
Proof.
  intros Ha Hb. unfold bswap_16.
  rewrite !land_255, Z.shiftr_div_pow2 by lia.
  rewrite Z.lor_comm, lor_shiftl_small by (change (2 ^ 8) with 256; try lia;
    apply Z.mod_pos_bound; lia).
  change (2 ^ 8) with 256.
  Z.div_mod_to_equations; lia.
Qed.

(** [ntohs] applied to a host-order load yields the big-endian value of the
    two bytes, whatever the host. *)
Lemma ntohs_load (e : byte_order) (buf : list byte) (off : Z) :
  ntohs e (u16_at e buf off) = be16 buf off.
Proof.
  destruct e; cbn [ntohs].
  - rewrite u16_at_little, bswap_16_bytes by apply u8_at_range.
    reflexivity.
  - apply u16_at_big.
Qed.

Lemma word_bytes (a b c d : Z) :
  0 <= a < 256 -> 0 <= b < 256 -> 0 <= c < 256 -> 0 <= d < 256 ->
  let x := a + 256 * b + 65536 * c + 16777216 * d in
  Z.land x 255 = a /\ Z.land (Z.shiftr x 8) 255 = b /\
  Z.land (Z.shiftr x 16) 255 = c /\ Z.land (Z.shiftr x 24) 255 = d.
Proof.
  intros Ha Hb Hc Hd x. subst x.
  rewrite !land_255, !Z.shiftr_div_pow2 by lia.
  change (2 ^ 8) with 256; change (2 ^ 16) with 65536;
    change (2 ^ 24) with 16777216.
  repeat split; Z.div_mod_to_equations; lia.
Qed.

Lemma u32_at_little (buf : list byte) (off : Z) :
  u32_at LittleEndian buf off =
  u8_at buf off + 256 * u8_at buf (off + 1) +
  65536 * u8_at buf (off + 2) + 16777216 * u8_at buf (off + 2 + 1).
Proof.
  unfold u32_at. rewrite !u16_at_little.
  pose proof (u8_at_range buf off); pose proof (u8_at_range buf (off + 1)).
  rewrite Z.lor_comm, lor_shiftl_small; lia.
Qed.

Lemma u32_at_big (buf : list byte) (off : Z) :
  u32_at BigEndian buf off = be32 buf off.
Proof.
  unfold u32_at, be32. rewrite !u16_at_big.
  pose proof (be16_range buf (off + 2)).
  rewrite lor_shiftl_small; lia.
Qed.

Lemma bswap_32_bytes (a b c d : Z) :
  0 <= a < 256 -> 0 <= b < 256 -> 0 <= c < 256 -> 0 <= d < 256 ->
  bswap_32 (a + 256 * b + 65536 * c + 16777216 * d) =
  16777216 * a + 65536 * b + 256 * c + d.
Proof.
  intros Ha Hb Hc Hd. unfold bswap_32.
  destruct (word_bytes a b c d Ha Hb Hc Hd) as (-> & -> & -> & ->).
  rewrite (Z.lor_comm d), lor_shiftl_small by lia.
  replace (Z.shiftl a 24) with (Z.shiftl (Z.shiftl a 8) 16)
    by (rewrite Z.shiftl_shiftl by lia; reflexivity).
  rewrite <- Z.shiftl_lor, (Z.lor_comm b), lor_shiftl_small by lia.
  rewrite Z.lor_comm, lor_shiftl_small by lia.
  lia.
Qed.

(** [ntohl] applied to a host-order load yields the big-endian value of the
    four bytes, whatever the host. *)
Lemma ntohl_load (e : byte_order) (buf : list byte) (off : Z) :
  ntohl e (u32_at e buf off) = be32 buf off.
Proof.
  destruct e; cbn [ntohl].
  - rewrite u32_at_little, bswap_32_bytes by apply u8_at_range.
    unfold be32, be16. lia.
  - apply u32_at_big.
Qed.

(** An address loaded and handed to [inet_ntoa] is printed byte by byte in
    buffer order, whatever the host. *)
Lemma inet_ntoa_load (e : byte_order) (buf : list byte) (off : Z) :
  inet_ntoa e (u32_at e buf off) =
  [u8_at buf off; u8_at buf (off + 1); u8_at buf (off + 2);
   u8_at buf (off + 2 + 1)].
Proof.
  pose proof (u8_at_range buf off) as H0.
  pose proof (u8_at_range buf (off + 1)) as H1.
  pose proof (u8_at_range buf (off + 2)) as H2.
  pose proof (u8_at_range buf (off + 2 + 1)) as H3.
  destruct e; unfold inet_ntoa.
  - rewrite u32_at_little.
    destruct (word_bytes _ _ _ _ H0 H1 H2 H3) as (-> & -> & -> & ->).
    reflexivity.
  - rewrite u32_at_big. unfold be32, be16.
    replace (65536 * (256 * u8_at buf off + u8_at buf (off + 1)) +
             (256 * u8_at buf (off + 2) + u8_at buf (off + 2 + 1)))
      with (u8_at buf (off + 2 + 1) + 256 * u8_at buf (off + 2) +
            65536 * u8_at buf (off + 1) + 16777216 * u8_at buf off) by lia.
    destruct (word_bytes _ _ _ _ H3 H2 H1 H0) as (-> & -> & -> & ->).
    reflexivity.
Qed.

(** ** Bit fields *)

Lemma ihl_range (buf : list byte) (p : Z) : 0 <= iphdr.ihl buf p <= 15.
Proof.
  unfold iphdr.ihl. rewrite land_15.
  pose proof (Z.mod_pos_bound (u8_at buf p) 16). lia.
Qed.

Lemma doff_range (buf : list byte) (p : Z) : 0 <= tcphdr.doff buf p <= 15.
Proof.
  unfold tcphdr.doff. rewrite Z.shiftr_div_pow2 by lia.
  pose proof (u8_at_range buf (p + 12)).
  change (2 ^ 4) with 16. Z.div_mod_to_equations; lia.
Qed.

Lemma tcp_offset_range (buf : list byte) : 14 <= tcp_offset buf <= 74.
Proof.
  unfold tcp_offset, ETH_HLEN. pose proof (ihl_range buf (0 + 14)). lia.
Qed.

(** Every byte the three printing functions read lies below offset 94, well
    inside a buffer of [BUF_SIZE] bytes: the Ethernet header is bytes 0-13,
    the IPv4 fields are bytes 14-33, and the twenty TCP bytes start at
    [tcp_offset], which is at most 74. *)
Lemma reads_stay_in_buffer (buf : list byte) :
  0 <= tcp_offset buf /\ tcp_offset buf + 20 <= 94 /\ 94 <= BUF_SIZE.
Proof.
  pose proof (tcp_offset_range buf). unfold BUF_SIZE. lia.
Qed.

(** ** [recvfrom] and the buffer *)

Lemma take_bytes_all (n : Z) (l : list byte) :
  Z.of_nat (List.length l) <= n -> take_bytes n l = l.
Proof.
  revert n; induction l as [| b l IH]; intros n Hn; cbn [take_bytes].
  - reflexivity.
  - cbn [List.length] in Hn.
    destruct (Z.leb_spec n 0) as [H0 | H0]; [lia |].
    rewrite IH by lia. reflexivity.
Qed.

Lemma take_bytes_length (n : Z) (l : list byte) :
  0 <= n -> Z.of_nat (List.length (take_bytes n l)) <= n.
Proof.
  revert n; induction l as [| b l IH]; intros n Hn; cbn [take_bytes].
  - cbn; lia.
  - destruct (Z.leb_spec n 0) as [H0 | H0]; [cbn; lia |].
    cbn [List.length]. specialize (IH (n - 1)). lia.
Qed.

(** Overwriting the front of a buffer leaves the bytes behind it alone. *)
Lemma nth_overwrite_high (s buf : list byte) (n : nat) :
  (List.length s <= n)%nat ->
  nth n (s ++ skipn (List.length s) buf) x00 = nth n buf x00.
Proof.
  revert buf n; induction s as [| b s IH]; intros buf n Hn.
  - reflexivity.
  - destruct n as [| n]; [cbn in Hn; lia |].
    destruct buf as [| c buf]; cbn [List.length app skipn nth].
    + rewrite app_nil_r. apply nth_overflow. cbn in Hn. lia.
    + apply IH. cbn in Hn. lia.
Qed.

Lemma nth_overwrite_low (s rest : list byte) (n : nat) :
  (n < List.length s)%nat -> nth n (s ++ rest) x00 = nth n s x00.
Proof. intros Hn. now apply app_nth1. Qed.

Lemma overwrite_length (s buf : list byte) :
  (List.length s <= List.length buf)%nat ->
  List.length (s ++ skipn (List.length s) buf) = List.length buf.
Proof. intros H. rewrite length_app, length_skipn. lia. Qed.

Lemma recvfrom_data_nonneg (data buf : list byte) :
  0 <= fst (recvfrom (RecvData data) buf).
Proof. cbn. lia. Qed.

Lemma recvfrom_data_length (data buf : list byte) :
  Z.of_nat (List.length data) <= BUF_SIZE ->
  fst (recvfrom (RecvData data) buf) = Z.of_nat (List.length data).
Proof. intros H. cbn. now rewrite take_bytes_all. Qed.

Lemma received_nil (buf : list byte) : received [] buf = buf.
Proof. reflexivity. Qed.

(** The buffer stays [BUF_SIZE] bytes long. *)
Lemma received_length (data buf : list byte) :
  Z.of_nat (List.length buf) = BUF_SIZE ->
  List.length (received data buf) = List.length buf.
Proof.
  intros H. unfold received; cbn.
  apply overwrite_length.
  pose proof (take_bytes_length BUF_SIZE data). unfold BUF_SIZE in *. lia.
Qed.

(** Below the frame's length the buffer holds the frame. *)
Lemma received_frame_bytes (data buf : list byte) (off : Z) :
  Z.of_nat (List.length data) <= BUF_SIZE ->
  0 <= off < Z.of_nat (List.length data) ->
  u8_at (received data buf) off = u8_at data off.
Proof.
  intros Hlen Hoff. unfold received, u8_at; cbn.
  rewrite take_bytes_all by assumption.
  rewrite nth_overwrite_low by lia. reflexivity.
Qed.

(** From the frame's length on the buffer holds what it held before. *)
Lemma received_stale_bytes (data buf : list byte) (off : Z) :
  Z.of_nat (List.length data) <= off ->
  u8_at (received data buf) off = u8_at buf off.
Proof.
  intros Hoff. unfold received, u8_at; cbn.
  rewrite nth_overwrite_high; [reflexivity |].
  destruct (Z_le_gt_dec (Z.of_nat (List.length data)) BUF_SIZE) as [H | H].
  - rewrite take_bytes_all by assumption. lia.
  - pose proof (take_bytes_length BUF_SIZE data). unfold BUF_SIZE in *. lia.
Qed.

(** Storing the same frame a second time changes nothing. *)
Lemma received_twice (data buf : list byte) :
  received data (received data buf) = received data buf.
Proof.
  unfold received; cbn.
  set (s := take_bytes BUF_SIZE data).
  rewrite skipn_app, skipn_all, Nat.sub_diag. reflexivity.
Qed.

(** ** One pass of the loop *)

Lemma print_headers_spec (e : byte_order) (w : world) :
  print_headers e w =
  {| buffer := buffer w; trace := trace w ++ header_blocks e (buffer w) |}.
Proof.
  unfold print_headers, print_tcp_packet, print_ip_header,
    print_ethernet_header, emit, header_blocks; cbn.
  rewrite <- !app_assoc. reflexivity.
Qed.

(** Whenever [recvfrom] delivers data, of whatever length and content, the
    pass prints the three header blocks from the buffer and the loop goes
    on. *)
Lemma loop_body_data (e : byte_order) (data : list byte) (w : world) :
  loop_body e (RecvData data) w =
  (Running,
   {| buffer := received data (buffer w);
      trace := trace w ++ header_blocks e (received data (buffer w)) |}).
Proof.
  unfold loop_body, received.
  pose proof (recvfrom_data_nonneg data (buffer w)) as Hlen.
  destruct (recvfrom (RecvData data) (buffer w)) as [len buf] eqn:Hrecv.
  cbn [fst snd] in *.
  destruct (Z.ltb_spec len 0) as [Hneg | _]; [lia |].
  fold (print_headers e {| buffer := buf; trace := trace w |}).
  rewrite print_headers_spec. reflexivity.
Qed.

(** A failed [recvfrom] prints the one diagnostic and leaves [main] with
    [-1], whatever [errno] says. *)
Lemma loop_body_error (e : byte_order) (errno : Z) (w : world) :
  loop_body e (RecvError errno) w =
  (Returned (-1),
   {| buffer := buffer w;
      trace := trace w ++
               [Stderr ("No data received due to error" ++ newline)%string] |}).
Proof. reflexivity. Qed.

(** The buffer keeps its [BUF_SIZE] bytes through every pass, so the reads
    bounded by [reads_stay_in_buffer] never leave it. *)
Lemma loop_body_buffer_length (e : byte_order) (r : recv_result) (w : world) :
  Z.of_nat (List.length (buffer w)) = BUF_SIZE ->
  List.length (buffer (snd (loop_body e r w))) = List.length (buffer w).
Proof.
  intros H. destruct r as [errno | data].
  - reflexivity.
  - rewrite loop_body_data; cbn [snd buffer]. now apply received_length.
Qed.

Lemma main_loop_buffer_length (e : byte_order) (rs : list recv_result)
  (w : world) :
  Z.of_nat (List.length (buffer w)) = BUF_SIZE ->
  List.length (buffer (snd (main_loop e rs w))) = List.length (buffer w).
Proof.
  revert w; induction rs as [| r rs IH]; intros w H; [reflexivity |].
  pose proof (loop_body_buffer_length e r w H) as Hstep.
  cbn [main_loop].
  destruct (loop_body e r w) as [[| code | code] w'] eqn:Hbody;
    cbn [snd] in *; try assumption.
  rewrite IH; [assumption | rewrite Hstep; assumption].
Qed.

(** ** The trace readers on a pass *)

Lemma ip_views_app (t u : list output) :
  ip_views (t ++ u) = ip_views t ++ ip_views u.
Proof.
  induction t as [| o t IH]; [reflexivity |].
  destruct o; cbn; rewrite IH; reflexivity.
Qed.

Lemma tcp_views_app (t u : list output) :
  tcp_views (t ++ u) = tcp_views t ++ tcp_views u.
Proof.
  induction t as [| o t IH]; [reflexivity |].
  destruct o; cbn; rewrite IH; reflexivity.
Qed.

Lemma diagnostics_app (t u : list output) :
  diagnostics (t ++ u) = diagnostics t ++ diagnostics u.
Proof.
  induction t as [| o t IH]; [reflexivity |].
  destruct o; cbn; rewrite IH; reflexivity.
Qed.

(** What a pass over received data adds to the trace: one IPv4 block, one
    TCP block, no diagnostic. *)
Lemma pass_views (e : byte_order) (data : list byte) (w : world) :
  let w' := snd (loop_body e (RecvData data) w) in
  ip_views (trace w') = ip_views (trace w) ++ [ip_fields e (buffer w')] /\
  tcp_views (trace w') = tcp_views (trace w) ++ [tcp_fields e (buffer w')] /\
  diagnostics (trace w') = diagnostics (trace w).
Proof.
  rewrite loop_body_data; cbn [snd buffer trace].
  rewrite ip_views_app, tcp_views_app, diagnostics_app; cbn.
  rewrite app_nil_r. auto.
Qed.

(** ** Frames shorter than an Ethernet header *)

(** C1, as the claim states it, fails: the five-byte frame [runt_frame]
    produces no diagnostic, and an IPv4 block and a TCP block are printed
    for it. *)
Lemma short_frame_counterexample :
  Z.of_nat (List.length runt_frame) < 14 /\
  let t := trace (snd (loop_body LittleEndian (RecvData runt_frame) boot)) in
  diagnostics t = [] /\
  List.length (ip_views t) = 1%nat /\ List.length (tcp_views t) = 1%nat.
Proof. vm_compute. repeat split. Qed.

(** C1 (amended): a frame of fewer than 14 bytes is not rejected.  The pass
    reports no error, prints the Ethernet, IPv4 and TCP blocks all the same
    and the loop goes on; the blocks are decoded from the buffer, whose
    bytes from offset L on are those left by earlier reads. *)
Theorem short_frame_decoded_anyway
  (e : byte_order) (data : list byte) (w : world) :
  Z.of_nat (List.length data) < 14 ->
  let r := loop_body e (RecvData data) w in
  fst r = Running /\
  trace (snd r) = trace w ++ header_blocks e (buffer (snd r)) /\
  diagnostics (trace (snd r)) = diagnostics (trace w) /\
  ip_views (trace (snd r)) =
    ip_views (trace w) ++ [ip_fields e (buffer (snd r))] /\
  tcp_views (trace (snd r)) =
    tcp_views (trace w) ++ [tcp_fields e (buffer (snd r))] /\
  forall off, Z.of_nat (List.length data) <= off ->
    u8_at (buffer (snd r)) off = u8_at (buffer w) off.
Proof.
  intros Hshort r.
  destruct (pass_views e data w) as (Hip & Htcp & Hdiag).
  subst r. repeat split; try assumption.
  - now rewrite loop_body_data.
  - now rewrite loop_body_data.
  - intros off Hoff. rewrite loop_body_data; cbn [snd buffer].
    now apply received_stale_bytes.
Qed.

Lemma short_frame_decoded_anyway_witness :
  Z.of_nat (List.length runt_frame) < 14 /\
  fst (loop_body LittleEndian (RecvData runt_frame) boot) = Running.
Proof.
  split; [vm_compute; reflexivity |].
  apply (short_frame_decoded_anyway LittleEndian runt_frame boot).
  vm_compute; reflexivity.
Defined.

(** ** The printed fields in terms of buffer bytes *)

Lemma ethernet_fields_decoded (e : byte_order) (buf : list byte) :
  ethernet_fields e buf =
  {| eth_destination := map (u8_at buf) [0; 1; 2; 3; 4; 5];
     eth_source := map (u8_at buf) [6; 7; 8; 9; 10; 11];
     eth_protocol := u16_at e buf 12 |}.
Proof. reflexivity. Qed.

Lemma ip_fields_decoded (e : byte_order) (buf : list byte) :
  ip_fields e buf =
  {| ip_version := Z.shiftr (u8_at buf 14) 4;
     ip_header_dwords := Z.land (u8_at buf 14) 15;
     ip_header_bytes := Z.land (u8_at buf 14) 15 * 4;
     ip_tos := u8_at buf 15;
     ip_total_length := be16 buf 16;
     ip_identification := be16 buf 18;
     ip_ttl := u8_at buf 22;
     ip_protocol := u8_at buf 23;
     ip_checksum := be16 buf 24;
     ip_source := map (u8_at buf) [26; 27; 28; 29];
     ip_destination := map (u8_at buf) [30; 31; 32; 33] |}.
Proof.
  unfold ip_fields, iphdr.tot_len, iphdr.id, iphdr.check, iphdr.saddr,
    iphdr.daddr.
  rewrite !ntohs_load, !inet_ntoa_load. reflexivity.
Qed.

Lemma tcp_fields_decoded (e : byte_order) (buf : list byte) :
  let p := tcp_offset buf in
  tcp_fields e buf =
  {| tcp_source_port := be16 buf p;
     tcp_destination_port := be16 buf (p + 2);
     tcp_sequence := be32 buf (p + 4);
     tcp_acknowledge := be32 buf (p + 8);
     tcp_header_dwords := Z.shiftr (u8_at buf (p + 12)) 4;
     tcp_header_bytes := Z.shiftr (u8_at buf (p + 12)) 4 * 4;
     tcp_urg := Z.land (Z.shiftr (u8_at buf (p + 13)) 5) 1;
     tcp_ack := Z.land (Z.shiftr (u8_at buf (p + 13)) 4) 1;
     tcp_psh := Z.land (Z.shiftr (u8_at buf (p + 13)) 3) 1;
     tcp_rst := Z.land (Z.shiftr (u8_at buf (p + 13)) 2) 1;
     tcp_syn := Z.land (Z.shiftr (u8_at buf (p + 13)) 1) 1;
     tcp_fin := Z.land (Z.shiftr (u8_at buf (p + 13)) 0) 1;
     tcp_window := be16 buf (p + 14);
     tcp_checksum := be16 buf (p + 16);
     tcp_urgent_pointer := u16_at e buf (p + 18) |}.
Proof.
  intros p. unfold tcp_fields; fold p.
  unfold tcphdr.source, tcphdr.dest, tcphdr.seq, tcphdr.ack_seq,
    tcphdr.window, tcphdr.check.
  rewrite !ntohs_load, !ntohl_load. reflexivity.
Qed.

Lemma tcp_offset_decoded (buf : list byte) :
  tcp_offset buf = 14 + Z.land (u8_at buf 14) 15 * 4.
Proof.
  unfold tcp_offset, iphdr.ihl, ETH_HLEN.
  change (0 + 14) with 14. lia.
Qed.

(** ** The IPv4 header length *)

(** C4, as the claim states it, fails: [ihl2_frame] declares IHL = 2, yet
    nothing is reported; the IPv4 block is printed with a length of 8 bytes
    and the TCP block is read at offset 14 + 8 = 22 (its source port is the
    TTL and protocol bytes, 0x4006). *)
Lemma small_ihl_counterexample :
  let w := snd (loop_body LittleEndian (RecvData ihl2_frame) boot) in
  iphdr.ihl (buffer w) 14 = 2 /\
  diagnostics (trace w) = [] /\
  map ip_header_bytes (ip_views (trace w)) = [8] /\
  tcp_offset (buffer w) = 22 /\
  map tcp_source_port (tcp_views (trace w)) = [16390].
Proof. vm_compute. repeat split. Qed.

(** C4 (amended): an IHL below 5 is not rejected.  The pass reports
    nothing, prints the IPv4 block with the length IHL*4 and reads the TCP
    block at offset 14 + IHL*4, which then lies inside the twenty bytes
    just decoded as the IPv4 header. *)
Theorem small_ihl_accepted
  (e : byte_order) (data : list byte) (w : world) :
  let r := loop_body e (RecvData data) w in
  let buf := buffer (snd r) in
  let IHL := Z.land (u8_at buf 14) 15 in
  IHL < 5 ->
  fst r = Running /\
  diagnostics (trace (snd r)) = diagnostics (trace w) /\
  ip_views (trace (snd r)) = ip_views (trace w) ++ [ip_fields e buf] /\
  ip_header_bytes (ip_fields e buf) = IHL * 4 /\
  tcp_views (trace (snd r)) = tcp_views (trace w) ++ [tcp_fields e buf] /\
  tcp_offset buf = 14 + IHL * 4 /\
  tcp_offset buf < 14 + 20 /\
  tcp_source_port (tcp_fields e buf) = be16 buf (14 + IHL * 4).
Proof.
  intros r buf IHL Hsmall.
  destruct (pass_views e data w) as (Hip & Htcp & Hdiag).
  pose proof (tcp_offset_decoded buf) as Hoff. fold IHL in Hoff.
  subst r. fold buf in Hip, Htcp.
  repeat split; try assumption.
  - now rewrite loop_body_data.
  - lia.
  - rewrite tcp_fields_decoded; cbn [tcp_source_port]. now rewrite Hoff.
Qed.

Lemma small_ihl_accepted_witness :
  let buf := buffer (snd (loop_body LittleEndian (RecvData ihl2_frame) boot)) in
  Z.land (u8_at buf 14) 15 < 5 /\ tcp_offset buf < 14 + 20.
Proof.
  assert (H : Z.land (u8_at (buffer (snd (loop_body LittleEndian
                 (RecvData ihl2_frame) boot))) 14) 15 < 5)
    by (vm_compute; reflexivity).
  split; [exact H |].
  apply (small_ihl_accepted LittleEndian ihl2_frame boot H).
Defined.

(** ** Which bytes a block depends on *)

Lemma agree_on_narrow (lo hi lo' hi' : Z) (b1 b2 : list byte) :
  lo <= lo' -> hi' <= hi -> agree_on lo hi b1 b2 -> agree_on lo' hi' b1 b2.
Proof. intros Hlo Hhi H off Hoff. apply H. lia. Qed.

(** The IPv4 block is a function of the twenty bytes 14-33. *)
Lemma ip_fields_footprint (e : byte_order) (b1 b2 : list byte) :
  agree_on 14 34 b1 b2 -> ip_fields e b1 = ip_fields e b2.
Proof.
  intros H. rewrite !ip_fields_decoded. unfold be16; cbn [map].
  rewrite !H by lia. reflexivity.
Qed.

(** The TCP block is a function of byte 14, which places it, and of the
    twenty bytes from [tcp_offset] on. *)
Lemma tcp_fields_footprint (e : byte_order) (b1 b2 : list byte) :
  u8_at b1 14 = u8_at b2 14 ->
  agree_on (tcp_offset b1) (tcp_offset b1 + 20) b1 b2 ->
  tcp_fields e b1 = tcp_fields e b2.
Proof.
  intros H14 H.
  assert (Hoff : tcp_offset b2 = tcp_offset b1)
    by (rewrite !tcp_offset_decoded, H14; reflexivity).
  rewrite !tcp_fields_decoded; cbv zeta. rewrite Hoff.
  set (p := tcp_offset b1) in *.
  unfold be32, be16. destruct e; unfold u16_at; rewrite !H by lia;
    reflexivity.
Qed.

Lemma land_shiftr_testbit (b n : Z) :
  0 <= n -> Z.land (Z.shiftr b n) 1 = Z.b2z (Z.testbit b n).
Proof.
  intros Hn. rewrite land_1, <- Z.bit0_mod, Z.shiftr_spec by lia.
  reflexivity.
Qed.

(** ** The protocol field *)

(** C2, as the claim states it, fails: [udp_frame] carries protocol 17, and
    a TCP block is printed for it all the same (ports 50000 and 80 read
    from the UDP bytes). *)
Lemma protocol_gate_counterexample :
  let w := snd (loop_body LittleEndian (RecvData udp_frame) boot) in
  ip_views (trace w) = [ip_fields LittleEndian (buffer w)] /\
  ip_protocol (ip_fields LittleEndian (buffer w)) = 17 /\
  ip_protocol (ip_fields LittleEndian (buffer w)) <> 6 /\
  map tcp_source_port (tcp_views (trace w)) = [50000] /\
  map tcp_destination_port (tcp_views (trace w)) = [80].
Proof. vm_compute. repeat split. discriminate. Qed.

(** C2 (amended): the protocol field is printed and never tested.  For
    every frame, whether its protocol field equals 6 or not, the TCP block
    is decoded at [tcp_offset] and printed, and nothing is reported on the
    error stream.  Where the protocol byte (offset 23) lies before the TCP
    bytes, changing it alone leaves the TCP block as it is. *)
Theorem tcp_printed_whatever_protocol
  (e : byte_order) (data : list byte) (w : world) :
  let r := loop_body e (RecvData data) w in
  let buf := buffer (snd r) in
  fst r = Running /\
  ip_protocol (ip_fields e buf) = u8_at buf 23 /\
  trace (snd r) =
    trace w ++ [EthernetHeader (ethernet_fields e buf);
                IPHeader (ip_fields e buf); TCPHeader (tcp_fields e buf)] /\
  tcp_views (trace (snd r)) = tcp_views (trace w) ++ [tcp_fields e buf] /\
  tcp_source_port (tcp_fields e buf) = be16 buf (tcp_offset buf) /\
  tcp_destination_port (tcp_fields e buf) = be16 buf (tcp_offset buf + 2) /\
  diagnostics (trace (snd r)) = diagnostics (trace w) /\
  (forall buf',
     23 < tcp_offset buf ->
     (forall off, off <> 23 -> u8_at buf off = u8_at buf' off) ->
     tcp_fields e buf' = tcp_fields e buf).
Proof.
  intros r buf.
  destruct (pass_views e data w) as (_ & Htcp & Hdiag).
  fold r in Htcp, Hdiag. fold buf in Htcp.
  split; [| split; [| split; [| split; [| split; [| split; [| split]]]]]].
  - subst r. now rewrite loop_body_data.
  - rewrite ip_fields_decoded. reflexivity.
  - subst buf r. now rewrite loop_body_data.
  - exact Htcp.
  - rewrite tcp_fields_decoded. reflexivity.
  - rewrite tcp_fields_decoded. reflexivity.
  - exact Hdiag.
  - intros buf' Hbefore Hsame. symmetry.
    apply tcp_fields_footprint.
    + apply Hsame. lia.
    + intros off Hoff. apply Hsame. lia.
Qed.

(** ** The 54-byte SYN segment *)

(** C5: a 54-byte frame with ether-type 0x0800, an IPv4 header with version
    4, IHL 5 and protocol 6, and a TCP header with data offset 5, SYN set
    and ACK clear: the pass prints all three blocks, and the TCP block
    shows the SYN flag as 1, the ACK flag as 0 and a header length of 20
    bytes. *)
Theorem syn_segment_decoded
  (e : byte_order) (data : list byte) (w : world) :
  List.length data = 54%nat ->
  be16 data 12 = 2048 ->
  u8_at data 14 = 69 ->
  u8_at data 23 = 6 ->
  Z.shiftr (u8_at data 46) 4 = 5 ->
  Z.testbit (u8_at data 47) 1 = true ->
  Z.testbit (u8_at data 47) 4 = false ->
  let r := loop_body e (RecvData data) w in
  exists eth ip tcp,
    fst r = Running /\
    trace (snd r) =
      trace w ++ [EthernetHeader eth; IPHeader ip; TCPHeader tcp] /\
    diagnostics (trace (snd r)) = diagnostics (trace w) /\
    ip_version ip = 4 /\ ip_header_bytes ip = 20 /\ ip_protocol ip = 6 /\
    tcp_syn tcp = 1 /\ tcp_ack tcp = 0 /\ tcp_header_bytes tcp = 20.
Proof.
  intros Hlen Htype Hvihl Hproto Hdoff Hsyn Hack r.
  set (buf := received data (buffer w)).
  assert (Hbyte : forall off, 0 <= off < 54 -> u8_at buf off = u8_at data off).
  { intros off Hoff. apply received_frame_bytes; rewrite Hlen;
      unfold BUF_SIZE; lia. }
  assert (Hoff : tcp_offset buf = 34).
  { rewrite tcp_offset_decoded, Hbyte, Hvihl by lia. reflexivity. }
  assert (Hip : ip_version (ip_fields e buf) = 4 /\
                ip_header_bytes (ip_fields e buf) = 20 /\
                ip_protocol (ip_fields e buf) = 6).
  { rewrite ip_fields_decoded;
      cbn [ip_version ip_header_bytes ip_protocol].
    rewrite !Hbyte, Hvihl, Hproto by lia. repeat split. }
  assert (Htcp : tcp_syn (tcp_fields e buf) = 1 /\
                 tcp_ack (tcp_fields e buf) = 0 /\
                 tcp_header_bytes (tcp_fields e buf) = 20).
  { rewrite tcp_fields_decoded; cbv zeta;
      cbn [tcp_syn tcp_ack tcp_header_bytes].
    rewrite Hoff. change (34 + 12) with 46; change (34 + 13) with 47.
    rewrite !Hbyte, Hdoff by lia.
    rewrite !land_shiftr_testbit, Hsyn, Hack by lia. repeat split. }
  destruct (pass_views e data w) as (_ & _ & Hdiag).
  exists (ethernet_fields e buf), (ip_fields e buf), (tcp_fields e buf).
  subst r. rewrite loop_body_data in *; cbn [fst snd trace buffer] in *.
  fold buf in Hdiag |- *.
  repeat split; try tauto.
Qed.

Lemma syn_segment_decoded_witness :
  exists eth ip tcp,
    trace (snd (loop_body LittleEndian (RecvData syn_frame) boot)) =
      [EthernetHeader eth; IPHeader ip; TCPHeader tcp] /\
    tcp_syn tcp = 1 /\ tcp_ack tcp = 0 /\ tcp_header_bytes tcp = 20.
Proof.
  destruct (syn_segment_decoded LittleEndian syn_frame boot)
    as (eth & ip & tcp & _ & Htrace & _ & _ & _ & _ & Hsyn & Hack & Hlen);
    try (vm_compute; reflexivity).
  exists eth, ip, tcp. auto.
Defined.

(** ** Where the IPv4 and TCP blocks lie *)

(** The IPv4 block does not depend on the fragment bytes 20 and 21. *)
Lemma ip_fields_read_bytes (e : byte_order) (b1 b2 : list byte) :
  (forall off, 14 <= off < 34 -> off <> 20 -> off <> 21 ->
     u8_at b1 off = u8_at b2 off) ->
  ip_fields e b1 = ip_fields e b2.
Proof.
  intros H. rewrite !ip_fields_decoded. unfold be16; cbn [map].
  rewrite !H by lia. reflexivity.
Qed.

(** C6, as the claim states it, fails, on a frame that resolves however
    the claim is read: [options_segment x40 xb4] has 58 bytes, IHL 5, both
    nibbles of its first TCP byte equal to 5, and data offset 6 in TCP
    byte 12.  The TCP block declares 24 bytes, [34, 58), not the 20 that
    the first TCP byte would give.  And the blocks do not cover their
    ranges exactly: clearing byte 20 (inside the IPv4 range) or the last
    option byte 57 (inside the TCP range) changes nothing that is
    printed. *)
Lemma view_ranges_counterexample :
  let frame := options_segment x40 xb4 in
  let w := snd (loop_body LittleEndian (RecvData frame) boot) in
  let buf := buffer w in
  Z.of_nat (List.length frame) = 58 /\
  Z.land (u8_at buf 14) 15 = 5 /\
  Z.shiftr (u8_at buf 34) 4 = 5 /\ Z.land (u8_at buf 34) 15 = 5 /\
  tcp_offset buf = 34 /\
  Z.shiftr (u8_at buf (34 + 12)) 4 = 6 /\
  map tcp_header_bytes (tcp_views (trace w)) = [24] /\
  u8_at (options_segment x00 xb4) 20 <> u8_at frame 20 /\
  trace (snd (loop_body LittleEndian
                (RecvData (options_segment x00 xb4)) boot)) = trace w /\
  u8_at (options_segment x40 x00) 57 <> u8_at frame 57 /\
  trace (snd (loop_body LittleEndian
                (RecvData (options_segment x40 x00)) boot)) = trace w.
Proof.
  vm_compute.
  repeat apply conj; try reflexivity; discriminate.
Qed.

(** C6 (amended): with IHL the low nibble of byte 14 and DOFF the high
    nibble of the byte at offset 12 of the TCP header (buffer offset
    14 + IHL*4 + 12), and both at least 5: the IPv4 block is read at
    offset 14, is printed with length IHL*4 and depends on no byte outside
    [14, 14 + IHL*4); the TCP block is read at offset 14 + IHL*4, is
    printed with length DOFF*4, and depends, besides the IHL byte that
    places it, on no byte outside [14 + IHL*4, 14 + IHL*4 + DOFF*4).  The
    blocks lie in these ranges without covering them: of the IPv4 range
    only the bytes 14-19 and 22-33 are read, of the TCP range only the
    first twenty bytes; option bytes are never read. *)
Theorem header_ranges
  (e : byte_order) (data : list byte) (w : world) :
  let r := loop_body e (RecvData data) w in
  let buf := buffer (snd r) in
  let IHL := Z.land (u8_at buf 14) 15 in
  let DOFF := Z.shiftr (u8_at buf (14 + IHL * 4 + 12)) 4 in
  5 <= IHL -> 5 <= DOFF ->
  trace (snd r) =
    trace w ++ [EthernetHeader (ethernet_fields e buf);
                IPHeader (ip_fields e buf); TCPHeader (tcp_fields e buf)] /\
  ip_header_bytes (ip_fields e buf) = IHL * 4 /\
  (forall buf', agree_on 14 (14 + IHL * 4) buf buf' ->
     ip_fields e buf' = ip_fields e buf) /\
  tcp_offset buf = 14 + IHL * 4 /\
  tcp_header_bytes (tcp_fields e buf) = DOFF * 4 /\
  (forall buf', u8_at buf' 14 = u8_at buf 14 ->
     agree_on (14 + IHL * 4) (14 + IHL * 4 + DOFF * 4) buf buf' ->
     tcp_fields e buf' = tcp_fields e buf) /\
  (forall buf',
     (forall off, 14 <= off < 34 -> off <> 20 -> off <> 21 ->
        u8_at buf off = u8_at buf' off) ->
     ip_fields e buf' = ip_fields e buf) /\
  (forall buf', u8_at buf' 14 = u8_at buf 14 ->
     agree_on (14 + IHL * 4) (14 + IHL * 4 + 20) buf buf' ->
     tcp_fields e buf' = tcp_fields e buf).
Proof.
  intros r buf IHL DOFF Hihl Hdoff.
  pose proof (tcp_offset_decoded buf) as Hoff. fold IHL in Hoff.
  repeat apply conj.
  - subst buf r. now rewrite loop_body_data.
  - rewrite ip_fields_decoded. reflexivity.
  - intros buf' H. symmetry. apply ip_fields_footprint.
    eapply agree_on_narrow; [| | exact H]; lia.
  - exact Hoff.
  - rewrite tcp_fields_decoded; cbv zeta; cbn [tcp_header_bytes].
    now rewrite Hoff.
  - intros buf' H14 H. symmetry. apply tcp_fields_footprint.
    + now symmetry.
    + rewrite Hoff. eapply agree_on_narrow; [| | exact H]; lia.
  - intros buf' H. symmetry. now apply ip_fields_read_bytes.
  - intros buf' H14 H. symmetry. apply tcp_fields_footprint.
    + now symmetry.
    + rewrite Hoff. exact H.
Qed.

Lemma header_ranges_witness :
  let buf :=
    buffer (snd (loop_body LittleEndian (RecvData (options_segment x40 xb4))
                   boot)) in
  5 <= Z.land (u8_at buf 14) 15 /\
  5 <= Z.shiftr (u8_at buf (14 + Z.land (u8_at buf 14) 15 * 4 + 12)) 4 /\
  tcp_offset buf = 14 + Z.land (u8_at buf 14) 15 * 4.
Proof.
  set (buf := buffer (snd (loop_body LittleEndian
                             (RecvData (options_segment x40 xb4)) boot))).
  assert (H1 : 5 <= Z.land (u8_at buf 14) 15)
    by (vm_compute; discriminate).
  assert (H2 : 5 <= Z.shiftr
                      (u8_at buf (14 + Z.land (u8_at buf 14) 15 * 4 + 12)) 4)
    by (vm_compute; discriminate).
  cbv zeta. split; [exact H1 | split; [exact H2 |]].
  apply (header_ranges LittleEndian (options_segment x40 xb4) boot H1 H2).
Defined.

(** ** Byte order of the printed fields *)

(** The fields passed through [ntohs]/[ntohl] are printed with their
    network-order value on either host. *)
Lemma converted_fields (e : byte_order) (buf : list byte) :
  let ip := ip_fields e buf in
  let tcp := tcp_fields e buf in
  let p := tcp_offset buf in
  ip_total_length ip = be16 buf 16 /\
  ip_identification ip = be16 buf 18 /\
  ip_checksum ip = be16 buf 24 /\
  tcp_source_port tcp = be16 buf p /\
  tcp_destination_port tcp = be16 buf (p + 2) /\
  tcp_sequence tcp = be32 buf (p + 4) /\
  tcp_acknowledge tcp = be32 buf (p + 8) /\
  tcp_window tcp = be16 buf (p + 14) /\
  tcp_checksum tcp = be16 buf (p + 16).
Proof.
  cbv zeta. rewrite ip_fields_decoded, tcp_fields_decoded.
  repeat apply conj; reflexivity.
Qed.

(** On a big-endian host the two fields printed without conversion come out
    right as well. *)
Lemma unconverted_fields_big_endian (buf : list byte) :
  eth_protocol (ethernet_fields BigEndian buf) = be16 buf 12 /\
  tcp_urgent_pointer (tcp_fields BigEndian buf) =
    be16 buf (tcp_offset buf + 18).
Proof.
  split.
  - apply u16_at_big.
  - rewrite tcp_fields_decoded. apply u16_at_big.
Qed.

(** C3: the ether-type and the TCP urgent pointer are printed as loaded,
    without [ntohs].  On a little-endian host every frame has them printed
    with the two bytes exchanged; for [urg_frame] (ether-type 0x0800, URG
    set, urgent pointer 1) the program prints protocol 8 and urgent pointer
    256, while the sibling fields of the same frame are converted. *)
Theorem ether_type_and_urgent_pointer_not_converted :
  (forall buf,
     eth_protocol (ethernet_fields LittleEndian buf) =
       u8_at buf 12 + 256 * u8_at buf 13 /\
     tcp_urgent_pointer (tcp_fields LittleEndian buf) =
       u8_at buf (tcp_offset buf + 18) +
       256 * u8_at buf (tcp_offset buf + 18 + 1)) /\
  let w := snd (loop_body LittleEndian (RecvData urg_frame) boot) in
  let buf := buffer w in
  be16 buf 12 = 2048 /\
  map eth_protocol (eth_views (trace w)) = [8] /\
  map tcp_urg (tcp_views (trace w)) = [1] /\
  be16 buf (tcp_offset buf + 18) = 1 /\
  map tcp_urgent_pointer (tcp_views (trace w)) = [256] /\
  map tcp_source_port (tcp_views (trace w)) = [50000] /\
  map tcp_window (tcp_views (trace w)) = [29200] /\
  map ip_total_length (ip_views (trace w)) = [40].
Proof.
  split.
  - intros buf. split.
    + rewrite ethernet_fields_decoded. apply u16_at_little.
    + rewrite tcp_fields_decoded. apply u16_at_little.
  - vm_compute. repeat split.
Qed.

(** ** The capture loop *)

Lemma main_loop_data (e : byte_order) (frames : list (list byte))
  (rest : list recv_result) (w : world) :
  fst (main_loop e (map RecvData frames) w) = Running /\
  main_loop e (map RecvData frames ++ rest) w =
  main_loop e rest (snd (main_loop e (map RecvData frames) w)).
Proof.
  revert w; induction frames as [| f frames IH]; intros w.
  - split; reflexivity.
  - cbn [map app main_loop]. rewrite loop_body_data. apply IH.
Qed.

(** Every frame adds three blocks to the trace. *)
Lemma main_loop_data_trace (e : byte_order) (frames : list (list byte))
  (w : world) :
  List.length (trace (snd (main_loop e (map RecvData frames) w))) =
  (List.length (trace w) + 3 * List.length frames)%nat.
Proof.
  revert w; induction frames as [| f frames IH]; intros w.
  - cbn. lia.
  - cbn [map main_loop]. rewrite loop_body_data, IH.
    cbn [trace List.length]. rewrite length_app. cbn [header_blocks List.length].
    lia.
Qed.

(** C7, as the claim states it, fails for the empty read, however it is
    understood.  A read of zero bytes is not skipped: three blocks are
    printed for it.  A read that fails for a momentary reason (EINTR,
    EAGAIN) ends the loop: the frame that would have come next is never
    read. *)
Lemma empty_read_counterexample :
  List.length (trace (snd (loop_body LittleEndian (RecvData []) boot)))
    = 3%nat /\
  main_loop LittleEndian [RecvError EINTR; RecvData syn_frame] boot =
    (Returned (-1),
     {| buffer := blank_buffer;
        trace :=
          [Stderr ("No data received due to error" ++ newline)%string] |}) /\
  fst (main_loop LittleEndian [RecvError EAGAIN; RecvData syn_frame] boot) =
    Returned (-1).
Proof. repeat apply conj; reflexivity. Qed.

(** C7 (amended): a failed read, whatever its cause, ends the loop with
    the one diagnostic and the return value -1, and nothing that follows is
    read; a read that delivers data, be it empty, short or malformed, has
    the three header blocks printed and the loop goes on to the next read.
    No frame content ends the loop: after any sequence of frames the loop
    is still running and has printed three blocks per frame. *)
Theorem capture_loop_policy (e : byte_order) (w : world) :
  (forall errno,
     loop_body e (RecvError errno) w =
       (Returned (-1),
        emit (Stderr ("No data received due to error" ++ newline)%string) w)) /\
  (forall data,
     fst (loop_body e (RecvData data) w) = Running /\
     trace (snd (loop_body e (RecvData data) w)) =
       trace w ++ header_blocks e (received data (buffer w))) /\
  (forall frames,
     fst (main_loop e (map RecvData frames) w) = Running /\
     diagnostics (trace (snd (main_loop e (map RecvData frames) w))) =
       diagnostics (trace w) /\
     List.length (trace (snd (main_loop e (map RecvData frames) w))) =
       (List.length (trace w) + 3 * List.length frames)%nat) /\
  (forall frames errno rest,
     main_loop e (map RecvData frames ++ RecvError errno :: rest) w =
       (Returned (-1),
        emit (Stderr ("No data received due to error" ++ newline)%string)
             (snd (main_loop e (map RecvData frames) w)))).
Proof.
  repeat apply conj.
  - intros errno. reflexivity.
  - intros data. rewrite loop_body_data. split; reflexivity.
  - intros frames. repeat apply conj.
    + apply main_loop_data with (rest := []).
    + revert w; induction frames as [| f frames IH]; intros w.
      * reflexivity.
      * cbn [map main_loop]. rewrite loop_body_data, IH.
        cbn [trace]. rewrite diagnostics_app. cbn. apply app_nil_r.
    + apply main_loop_data_trace.
  - intros frames errno rest.
    destruct (main_loop_data e frames (RecvError errno :: rest) w)
      as [_ ->].
    reflexivity.
Qed.

(** ** Resolving a frame twice *)

(** C8: the printing functions only read the buffer.  Running the three of
    them a second time on the same buffer prints the same three blocks
    again; and receiving the same frame once more leaves the buffer as it
    was and has the pass print the same three blocks as the first one. *)
Theorem resolution_idempotent
  (e : byte_order) (data : list byte) (w : world) :
  let w1 := print_headers e w in
  let w2 := print_headers e w1 in
  let r1 := loop_body e (RecvData data) w in
  let r2 := loop_body e (RecvData data) (snd r1) in
  buffer w1 = buffer w /\
  trace w1 = trace w ++ header_blocks e (buffer w) /\
  trace w2 = trace w1 ++ header_blocks e (buffer w) /\
  buffer (snd r2) = buffer (snd r1) /\
  trace (snd r1) = trace w ++ header_blocks e (buffer (snd r1)) /\
  trace (snd r2) = trace (snd r1) ++ header_blocks e (buffer (snd r1)) /\
  ip_views (trace (snd r2)) =
    ip_views (trace w) ++
    [ip_fields e (buffer (snd r1)); ip_fields e (buffer (snd r1))] /\
  tcp_views (trace (snd r2)) =
    tcp_views (trace w) ++
    [tcp_fields e (buffer (snd r1)); tcp_fields e (buffer (snd r1))].
Proof.
  cbv zeta. rewrite !print_headers_spec, !loop_body_data.
  cbn [fst snd buffer trace]. rewrite received_twice.
  rewrite !ip_views_app, !tcp_views_app, <- !app_assoc.
  repeat apply conj; reflexivity.
Qed.

(** ** No gate before the IPv4 and TCP decoders *)

(** C9: for every frame the pass prints an Ethernet, an IPv4 and a TCP
    block.  The IPv4 fields are the bytes from offset 14 on and the TCP
    fields the bytes from offset 14 + IHL*4 on, with no condition on the
    ether-type, on the version nibble or on the protocol field; changing
    the bytes before offset 14 (the ether-type among them) changes neither
    block. *)
Theorem headers_decoded_unconditionally
  (e : byte_order) (data : list byte) (w : world) :
  let r := loop_body e (RecvData data) w in
  let buf := buffer (snd r) in
  let IHL := Z.land (u8_at buf 14) 15 in
  let p := 14 + IHL * 4 in
  fst r = Running /\
  trace (snd r) =
    trace w ++
    [EthernetHeader (ethernet_fields e buf);
     IPHeader
       {| ip_version := Z.shiftr (u8_at buf 14) 4;
          ip_header_dwords := IHL;
          ip_header_bytes := IHL * 4;
          ip_tos := u8_at buf 15;
          ip_total_length := be16 buf 16;
          ip_identification := be16 buf 18;
          ip_ttl := u8_at buf 22;
          ip_protocol := u8_at buf 23;
          ip_checksum := be16 buf 24;
          ip_source := map (u8_at buf) [26; 27; 28; 29];
          ip_destination := map (u8_at buf) [30; 31; 32; 33] |};
     TCPHeader
       {| tcp_source_port := be16 buf p;
          tcp_destination_port := be16 buf (p + 2);
          tcp_sequence := be32 buf (p + 4);
          tcp_acknowledge := be32 buf (p + 8);
          tcp_header_dwords := Z.shiftr (u8_at buf (p + 12)) 4;
          tcp_header_bytes := Z.shiftr (u8_at buf (p + 12)) 4 * 4;
          tcp_urg := Z.land (Z.shiftr (u8_at buf (p + 13)) 5) 1;
          tcp_ack := Z.land (Z.shiftr (u8_at buf (p + 13)) 4) 1;
          tcp_psh := Z.land (Z.shiftr (u8_at buf (p + 13)) 3) 1;
          tcp_rst := Z.land (Z.shiftr (u8_at buf (p + 13)) 2) 1;
          tcp_syn := Z.land (Z.shiftr (u8_at buf (p + 13)) 1) 1;
          tcp_fin := Z.land (Z.shiftr (u8_at buf (p + 13)) 0) 1;
          tcp_window := be16 buf (p + 14);
          tcp_checksum := be16 buf (p + 16);
          tcp_urgent_pointer := u16_at e buf (p + 18) |}] /\
  (forall buf', agree_on 14 94 buf buf' ->
     ip_fields e buf' = ip_fields e buf /\
     tcp_fields e buf' = tcp_fields e buf).
Proof.
  intros r buf IHL p.
  pose proof (tcp_offset_decoded buf) as Hoff. fold IHL in Hoff. fold p in Hoff.
  pose proof (tcp_offset_range buf) as Hrange.
  repeat apply conj.
  - subst r. now rewrite loop_body_data.
  - assert (Htrace : trace (snd r) = trace w ++ header_blocks e buf)
      by (subst buf r; rewrite loop_body_data; reflexivity).
    rewrite Htrace. unfold header_blocks.
    rewrite ip_fields_decoded, tcp_fields_decoded; cbv zeta.
    rewrite Hoff. reflexivity.
  - intros buf' H. split; symmetry.
    + apply ip_fields_footprint.
      eapply agree_on_narrow; [| | exact H]; lia.
    + apply tcp_fields_footprint; [apply H; lia |].
      eapply agree_on_narrow; [| | exact H]; lia.
Qed.

(** ** A read of zero bytes *)

(** C10: a read of zero bytes returns 0, which is not below 0: the pass
    stores nothing, leaves the buffer as the previous pass left it, prints
    the three blocks decoded from it (after a frame, the same three blocks
    once more) and the loop goes on.  The loop is left exactly when the
    result of [recvfrom] is negative. *)
Theorem zero_length_read_decoded
  (e : byte_order) (data : list byte) (w : world) :
  fst (recvfrom (RecvData []) (buffer w)) = 0 /\
  loop_body e (RecvData []) w =
    (Running,
     {| buffer := buffer w; trace := trace w ++ header_blocks e (buffer w) |}) /\
  main_loop e [RecvData data; RecvData []] w =
    (Running,
     {| buffer := received data (buffer w);
        trace := trace w ++ header_blocks e (received data (buffer w))
                         ++ header_blocks e (received data (buffer w)) |}) /\
  (forall r, fst (loop_body e r w) = Returned (-1) <->
             fst (recvfrom r (buffer w)) < 0) /\
  (forall r, fst (loop_body e r w) = Running <->
             0 <= fst (recvfrom r (buffer w))).
Proof.
  split; [| split; [| split; [| split]]].
  - reflexivity.
  - rewrite loop_body_data, received_nil. reflexivity.
  - cbn [main_loop]. rewrite !loop_body_data; cbn [buffer trace].
    rewrite received_nil, <- app_assoc. reflexivity.
  - intros [errno | frame].
    + cbn. split; [lia | reflexivity].
    + rewrite loop_body_data.
      pose proof (recvfrom_data_nonneg frame (buffer w)).
      cbn [fst]. split; [discriminate | lia].
  - intros [errno | frame].
    + cbn. split; [discriminate | lia].
    + rewrite loop_body_data.
      pose proof (recvfrom_data_nonneg frame (buffer w)).
      cbn [fst]. split; [lia | reflexivity].
Qed.

(** * Further properties of the program *)

(** ** Ranges of the printed values *)

Lemma u16_at_range (e : byte_order) (buf : list byte) (off : Z) :
  is_u16 (u16_at e buf off).
Proof.
  destruct e; [rewrite u16_at_little | rewrite u16_at_big; unfold be16];
    pose proof (u8_at_range buf off); pose proof (u8_at_range buf (off + 1));
    unfold is_u16; lia.
Qed.

Lemma be32_range (buf : list byte) (off : Z) : is_u32 (be32 buf off).
Proof.
  unfold be32, is_u32.
  pose proof (be16_range buf off); pose proof (be16_range buf (off + 2)).
  lia.
Qed.

Lemma flag_bit (bit : Z) (buf : list byte) (p : Z) :
  is_bit (Z.land (Z.shiftr (u8_at buf (p + 13)) bit) 1).
Proof.
  rewrite land_1. unfold is_bit.
  pose proof (Z.mod_pos_bound (Z.shiftr (u8_at buf (p + 13)) bit) 2). lia.
Qed.

Lemma u8_at_all (buf : list byte) (offs : list Z) :
  Forall is_u8 (map (u8_at buf) offs).
Proof.
  induction offs as [| o offs IH]; cbn [map]; constructor;
    [apply u8_at_range | exact IH].
Qed.

(** Whatever the buffer holds and whatever the host, every number handed to
    [printf] lies in the range of the field it is read from: the two MAC
    addresses are six bytes each and the IPv4 addresses four, version, IHL
    and data offset are nibbles, the header lengths are four times the
    word counts (so at most 60), the flags are 0 or 1, and the 16- and
    32-bit fields, converted or not, stay below 2^16 and 2^32. *)
Theorem printed_values_in_range (e : byte_order) (buf : list byte) :
  let eth := ethernet_fields e buf in
  let ip := ip_fields e buf in
  let tcp := tcp_fields e buf in
  (List.length (eth_destination eth) = 6%nat /\
   Forall is_u8 (eth_destination eth) /\
   List.length (eth_source eth) = 6%nat /\
   Forall is_u8 (eth_source eth) /\
   is_u16 (eth_protocol eth)) /\
  (0 <= ip_version ip <= 15 /\
   0 <= ip_header_dwords ip <= 15 /\
   ip_header_bytes ip = 4 * ip_header_dwords ip /\
   is_u8 (ip_tos ip) /\ is_u16 (ip_total_length ip) /\
   is_u16 (ip_identification ip) /\ is_u8 (ip_ttl ip) /\
   is_u8 (ip_protocol ip) /\ is_u16 (ip_checksum ip) /\
   List.length (ip_source ip) = 4%nat /\ Forall is_u8 (ip_source ip) /\
   List.length (ip_destination ip) = 4%nat /\
   Forall is_u8 (ip_destination ip)) /\
  (is_u16 (tcp_source_port tcp) /\ is_u16 (tcp_destination_port tcp) /\
   is_u32 (tcp_sequence tcp) /\ is_u32 (tcp_acknowledge tcp) /\
   0 <= tcp_header_dwords tcp <= 15 /\
   tcp_header_bytes tcp = 4 * tcp_header_dwords tcp /\
   is_bit (tcp_urg tcp) /\ is_bit (tcp_ack tcp) /\ is_bit (tcp_psh tcp) /\
   is_bit (tcp_rst tcp) /\ is_bit (tcp_syn tcp) /\ is_bit (tcp_fin tcp) /\
   is_u16 (tcp_window tcp) /\ is_u16 (tcp_checksum tcp) /\
   is_u16 (tcp_urgent_pointer tcp)).
Proof.
  cbv zeta.
  rewrite ethernet_fields_decoded, ip_fields_decoded, tcp_fields_decoded.
  cbv zeta.
  cbn [eth_destination eth_source eth_protocol
       ip_version ip_header_dwords ip_header_bytes ip_tos ip_total_length
       ip_identification ip_ttl ip_protocol ip_checksum ip_source
       ip_destination
       tcp_source_port tcp_destination_port tcp_sequence tcp_acknowledge
       tcp_header_dwords tcp_header_bytes tcp_urg tcp_ack tcp_psh tcp_rst
       tcp_syn tcp_fin tcp_window tcp_checksum tcp_urgent_pointer].
  set (p := tcp_offset buf).
  pose proof (u8_at_range buf 14) as H14.
  pose proof (u8_at_range buf (p + 12)) as H12.
  assert (Hver : 0 <= Z.shiftr (u8_at buf 14) 4 <= 15).
  { rewrite Z.shiftr_div_pow2 by lia. change (2 ^ 4) with 16.
    Z.div_mod_to_equations; lia. }
  assert (Hihl : 0 <= Z.land (u8_at buf 14) 15 <= 15).
  { rewrite land_15. Z.div_mod_to_equations; lia. }
  assert (Hdoff : 0 <= Z.shiftr (u8_at buf (p + 12)) 4 <= 15).
  { rewrite Z.shiftr_div_pow2 by lia. change (2 ^ 4) with 16.
    Z.div_mod_to_equations; lia. }
  repeat apply conj;
    try reflexivity;
    try apply u8_at_all;
    try apply u8_at_range;
    try apply be16_range;
    try apply be32_range;
    try apply u16_at_range;
    try apply flag_bit;
    lia.
Qed.

(** ** The bit fields *)

(** Version and IHL are the two halves of byte 14, nothing of it is lost.
    The data offset shown is the high nibble of TCP byte 12, and the six
    flags shown are exactly the low six bits of TCP byte 13: its two top
    bits are never printed. *)
Theorem bit_fields_partition_their_bytes (e : byte_order) (buf : list byte) :
  let ip := ip_fields e buf in
  let tcp := tcp_fields e buf in
  let p := tcp_offset buf in
  16 * ip_version ip + ip_header_dwords ip = u8_at buf 14 /\
  16 * tcp_header_dwords tcp + u8_at buf (p + 12) mod 16 =
    u8_at buf (p + 12) /\
  32 * tcp_urg tcp + 16 * tcp_ack tcp + 8 * tcp_psh tcp + 4 * tcp_rst tcp +
    2 * tcp_syn tcp + tcp_fin tcp = u8_at buf (p + 13) mod 64.
Proof.
  cbv zeta. rewrite ip_fields_decoded, tcp_fields_decoded. cbv zeta.
  cbn [ip_version ip_header_dwords tcp_header_dwords tcp_urg tcp_ack
       tcp_psh tcp_rst tcp_syn tcp_fin].
  set (p := tcp_offset buf).
  pose proof (u8_at_range buf 14) as H14.
  pose proof (u8_at_range buf (p + 12)) as H12.
  pose proof (u8_at_range buf (p + 13)) as H13.
  rewrite land_15, !land_1, !Z.shiftr_div_pow2 by lia.
  change (2 ^ 5) with 32; change (2 ^ 4) with 16; change (2 ^ 3) with 8;
    change (2 ^ 2) with 4; change (2 ^ 1) with 2; change (2 ^ 0) with 1.
  repeat apply conj; Z.div_mod_to_equations; lia.
Qed.

(** ** What depends on the host *)

Lemma ethernet_fields_footprint (e : byte_order) (b1 b2 : list byte) :
  agree_on 0 14 b1 b2 -> ethernet_fields e b1 = ethernet_fields e b2.
Proof.
  intros H.
  unfold ethernet_fields, ethhdr.h_dest, ethhdr.h_source, ethhdr.h_proto.
  cbn [map].
  destruct e; unfold u16_at; rewrite !H by lia; reflexivity.
Qed.

Lemma swapped_pair_equal (a b : Z) :
  a + 256 * b = 256 * a + b <-> a = b.
Proof. lia. Qed.

(** The IPv4 block is the same on a little-endian and on a big-endian
    host.  The whole output of a pass is the same on both exactly when the
    two bytes of the ether-type are equal and the two bytes of the TCP
    urgent pointer are equal: these two fields are the only ones whose
    printed value depends on the host. *)
Theorem output_host_dependence (buf : list byte) :
  let p := tcp_offset buf in
  ip_fields LittleEndian buf = ip_fields BigEndian buf /\
  (header_blocks LittleEndian buf = header_blocks BigEndian buf <->
   u8_at buf 12 = u8_at buf 13 /\
   u8_at buf (p + 18) = u8_at buf (p + 19)).
Proof.
  intros p.
  assert (Hip : ip_fields LittleEndian buf = ip_fields BigEndian buf)
    by (rewrite !ip_fields_decoded; reflexivity).
  assert (Heth : eth_protocol (ethernet_fields LittleEndian buf) =
                 eth_protocol (ethernet_fields BigEndian buf) <->
                 u8_at buf 12 = u8_at buf 13).
  { unfold ethernet_fields, ethhdr.h_proto; cbn [eth_protocol].
    change (0 + 12) with 12.
    rewrite u16_at_little, u16_at_big. unfold be16.
    change (12 + 1) with 13. apply swapped_pair_equal. }
  assert (Hurg : tcp_urgent_pointer (tcp_fields LittleEndian buf) =
                 tcp_urgent_pointer (tcp_fields BigEndian buf) <->
                 u8_at buf (p + 18) = u8_at buf (p + 19)).
  { rewrite !tcp_fields_decoded; cbv zeta; cbn [tcp_urgent_pointer].
    fold p. rewrite u16_at_little, u16_at_big. unfold be16.
    replace (p + 18 + 1) with (p + 19) by lia. apply swapped_pair_equal. }
  split; [exact Hip |]. split.
  - intros H.
    pose proof (f_equal (fun t => hd 0 (map eth_protocol (eth_views t))) H)
      as He.
    pose proof
      (f_equal (fun t => hd 0 (map tcp_urgent_pointer (tcp_views t))) H)
      as Ht.
    unfold header_blocks in He, Ht.
    cbn [eth_views tcp_views map hd] in He, Ht.
    split; [apply Heth; exact He | apply Hurg; exact Ht].
  - intros [H12 H18]. unfold header_blocks. rewrite Hip.
    apply Heth in H12. apply Hurg in H18.
    assert (He : ethernet_fields LittleEndian buf =
                 ethernet_fields BigEndian buf).
    { unfold ethernet_fields in *. cbn [eth_protocol] in H12.
      rewrite H12. reflexivity. }
    assert (Ht : tcp_fields LittleEndian buf = tcp_fields BigEndian buf).
    { rewrite !tcp_fields_decoded in *. cbv zeta in *.
      cbn [tcp_urgent_pointer] in H18. rewrite H18. reflexivity. }
    rewrite He, Ht. reflexivity.
Qed.

(** ** Reads stay inside the buffer *)

Lemma header_blocks_footprint (e : byte_order) (b1 b2 : list byte) :
  agree_on 0 94 b1 b2 -> header_blocks e b1 = header_blocks e b2.
Proof.
  intros H. unfold header_blocks.
  pose proof (tcp_offset_range b1) as Hrange.
  rewrite (ethernet_fields_footprint e b1 b2),
    (ip_fields_footprint e b1 b2), (tcp_fields_footprint e b1 b2);
    try reflexivity;
    try (eapply agree_on_narrow; [| | exact H]; lia).
  apply H; lia.
Qed.

(** Started with a buffer of [BUF_SIZE] bytes, [main] keeps it at that
    size through any sequence of reads, the TCP header is looked for at an
    offset between 14 and 74, and what a pass prints depends on no byte at
    offset 94 or beyond: every read of the three printing functions falls
    inside the buffer, whatever IHL a frame declares. *)
Theorem reads_within_buffer
  (e : byte_order) (raw_socket : Z) (heap : list byte)
  (rs : list recv_result) :
  Z.of_nat (List.length heap) = BUF_SIZE ->
  let buf := buffer (snd (main e raw_socket heap rs)) in
  Z.of_nat (List.length buf) = BUF_SIZE /\
  14 <= tcp_offset buf /\ tcp_offset buf + 20 <= 94 /\ 94 <= BUF_SIZE /\
  forall buf', agree_on 0 94 buf buf' ->
    header_blocks e buf' = header_blocks e buf.
Proof.
  intros Hheap buf.
  pose proof (tcp_offset_range buf) as Hrange.
  repeat apply conj; try lia; try (unfold BUF_SIZE; lia).
  - subst buf. unfold main.
    destruct (raw_socket <? 0); [exact Hheap |].
    rewrite main_loop_buffer_length; exact Hheap.
  - intros buf' H. symmetry. now apply header_blocks_footprint.
Qed.

Lemma reads_within_buffer_witness :
  Z.of_nat (List.length blank_buffer) = BUF_SIZE /\
  Z.of_nat (List.length
    (buffer (snd (main LittleEndian 3 blank_buffer
                    [RecvData syn_frame; RecvData runt_frame])))) = BUF_SIZE.
Proof.
  assert (H : Z.of_nat (List.length blank_buffer) = BUF_SIZE)
    by (vm_compute; reflexivity).
  split; [exact H |].
  apply (reads_within_buffer LittleEndian 3 blank_buffer
           [RecvData syn_frame; RecvData runt_frame] H).
Defined.

(** ** What a pass shows of the frame and of earlier frames *)

Lemma take_bytes_nth (k : Z) (l : list byte) (n : nat) :
  Z.of_nat n < k -> nth n (take_bytes k l) x00 = nth n l x00.
Proof.
  revert k n; induction l as [| b l IH]; intros k n Hn; cbn [take_bytes].
  - reflexivity.
  - destruct (Z.leb_spec k 0) as [H0 | H0]; [lia |].
    destruct n as [| n]; [reflexivity |].
    cbn [nth]. apply IH. lia.
Qed.

Lemma take_bytes_length_min (k : Z) (l : list byte) :
  0 <= k ->
  Z.of_nat (List.length (take_bytes k l)) = Z.min k (Z.of_nat (List.length l)).
Proof.
  revert k; induction l as [| b l IH]; intros k Hk; cbn [take_bytes].
  - cbn. lia.
  - destruct (Z.leb_spec k 0) as [H0 | H0]; [cbn; lia |].
    cbn [List.length]. specialize (IH (k - 1)). lia.
Qed.

(** Below the frame's length, and below [BUF_SIZE], the buffer holds the
    frame, however long the frame is. *)
Lemma received_frame_prefix (data buf : list byte) (off : Z) :
  0 <= off < Z.of_nat (List.length data) -> off < BUF_SIZE ->
  u8_at (received data buf) off = u8_at data off.
Proof.
  intros Hoff Hsize. unfold received, u8_at; cbn.
  pose proof (take_bytes_length_min BUF_SIZE data) as Hlen.
  unfold BUF_SIZE in *.
  rewrite nth_overwrite_low by lia.
  rewrite take_bytes_nth by lia. reflexivity.
Qed.

(** A frame long enough to hold the twenty TCP bytes at the offset its own
    IHL gives determines everything the pass prints: nothing of what the
    buffer held before shows in the three blocks. *)
Theorem full_frame_determines_output
  (e : byte_order) (data buf : list byte) :
  tcp_offset data + 20 <= Z.of_nat (List.length data) ->
  header_blocks e (received data buf) = header_blocks e data.
Proof.
  intros Hlen.
  pose proof (tcp_offset_range data) as Hrange.
  assert (Hagree : agree_on 0 (tcp_offset data + 20) (received data buf) data).
  { intros off Hoff. apply received_frame_prefix; unfold BUF_SIZE; lia. }
  assert (Hoff : tcp_offset (received data buf) = tcp_offset data).
  { rewrite !tcp_offset_decoded. rewrite (Hagree 14) by lia. reflexivity. }
  unfold header_blocks.
  rewrite (ethernet_fields_footprint e (received data buf) data),
    (ip_fields_footprint e (received data buf) data),
    (tcp_fields_footprint e (received data buf) data);
    try reflexivity;
    try (rewrite ?Hoff; eapply agree_on_narrow; [| | exact Hagree]; lia).
  apply Hagree; lia.
Qed.

Lemma full_frame_determines_output_witness :
  tcp_offset syn_frame + 20 <= Z.of_nat (List.length syn_frame) /\
  header_blocks BigEndian (received syn_frame blank_buffer) =
  header_blocks BigEndian syn_frame.
Proof.
  assert (H : tcp_offset syn_frame + 20 <= Z.of_nat (List.length syn_frame))
    by (vm_compute; discriminate).
  split; [exact H |].
  exact (full_frame_determines_output BigEndian syn_frame blank_buffer H).
Defined.

(** A frame of at most 14 bytes leaves the rest of the buffer as the frame
    before it left it: the pass for the short frame prints the IPv4 and TCP
    blocks of the preceding frame a second time. *)
Theorem short_frame_replays_previous_blocks
  (e : byte_order) (previous data : list byte) (w : world) :
  Z.of_nat (List.length data) <= 14 ->
  let r := main_loop e [RecvData previous; RecvData data] w in
  let seen := received previous (buffer w) in
  fst r = Running /\
  ip_views (trace (snd r)) =
    ip_views (trace w) ++ [ip_fields e seen; ip_fields e seen] /\
  tcp_views (trace (snd r)) =
    tcp_views (trace w) ++ [tcp_fields e seen; tcp_fields e seen].
Proof.
  intros Hshort r seen.
  assert (Hagree : agree_on 14 94 (received data seen) seen).
  { intros off Hoff. apply received_stale_bytes. lia. }
  pose proof (tcp_offset_range (received data seen)) as Hrange.
  assert (Hip : ip_fields e (received data seen) = ip_fields e seen).
  { apply ip_fields_footprint.
    eapply agree_on_narrow; [| | exact Hagree]; lia. }
  assert (Htcp : tcp_fields e (received data seen) = tcp_fields e seen).
  { apply tcp_fields_footprint; [apply Hagree; lia |].
    eapply agree_on_narrow; [| | exact Hagree]; lia. }
  subst r. cbn [main_loop]. rewrite !loop_body_data.
  cbn [fst snd buffer trace]. fold seen.
  rewrite !ip_views_app, !tcp_views_app. unfold header_blocks.
  cbn [ip_views tcp_views]. rewrite Hip, Htcp, <- !app_assoc.
  repeat apply conj; reflexivity.
Qed.

Lemma short_frame_replays_previous_blocks_witness :
  Z.of_nat (List.length runt_frame) <= 14 /\
  tcp_views (trace (snd (main_loop LittleEndian
                           [RecvData syn_frame; RecvData runt_frame] boot))) =
  [tcp_fields LittleEndian (received syn_frame blank_buffer);
   tcp_fields LittleEndian (received syn_frame blank_buffer)].
Proof.
  assert (H : Z.of_nat (List.length runt_frame) <= 14)
    by (vm_compute; discriminate).
  split; [exact H |].
  exact (proj2 (proj2
    (short_frame_replays_previous_blocks LittleEndian syn_frame runt_frame
       boot H))).
Defined.

(** ** How [main] ends *)

Lemma main_loop_status (e : byte_order) (rs : list recv_result) (w : world) :
  fst (main_loop e rs w) =
    (if existsb is_error rs then Returned (-1) else Running) /\
  List.length (trace (snd (main_loop e rs w))) =
    (List.length (trace w) + 3 * reads_before_failure rs +
     (if existsb is_error rs then 1 else 0))%nat.
Proof.
  revert w; induction rs as [| r rs IH]; intros w.
  - cbn. split; [reflexivity | lia].
  - destruct r as [errno | data].
    + cbn [main_loop existsb is_error orb reads_before_failure].
      rewrite loop_body_error. cbn [fst snd trace].
      rewrite length_app. cbn. split; [reflexivity | lia].
    + cbn [main_loop existsb is_error orb reads_before_failure].
      rewrite loop_body_data. destruct (IH
        {| buffer := received data (buffer w);
           trace := trace w ++ header_blocks e (received data (buffer w)) |})
        as [Hst Hlen].
      rewrite Hst, Hlen. cbn [trace]. rewrite length_app.
      cbn [header_blocks List.length]. split; [reflexivity | lia].
Qed.

Lemma main_loop_diagnostics (e : byte_order) (rs : list recv_result)
  (w : world) :
  List.length (diagnostics (trace (snd (main_loop e rs w)))) =
  (List.length (diagnostics (trace w)) +
   (if existsb is_error rs then 1 else 0))%nat.
Proof.
  revert w; induction rs as [| r rs IH]; intros w.
  - cbn. lia.
  - destruct r as [errno | data]; cbn [main_loop existsb is_error orb].
    + rewrite loop_body_error. cbn [snd trace].
      rewrite diagnostics_app, length_app. reflexivity.
    + rewrite loop_body_data, IH. cbn [trace].
      rewrite diagnostics_app. cbn. rewrite app_nil_r. reflexivity.
Qed.

(** The buffer after the loop is the initial one overwritten by the frames
    delivered before the first failed read, in order, and by nothing
    else. *)
Lemma main_loop_buffer (e : byte_order) (rs : list recv_result) (w : world) :
  buffer (snd (main_loop e rs w)) =
  fold_left (fun buf data => received data buf) (frames_before_failure rs)
            (buffer w).
Proof.
  revert w; induction rs as [| r rs IH]; intros w; [reflexivity |].
  destruct r as [errno | data]; cbn [main_loop frames_before_failure fold_left].
  - rewrite loop_body_error. reflexivity.
  - rewrite loop_body_data, IH. reflexivity.
Qed.

(** [main] ends in one of two ways only.  If the socket cannot be created
    it exits with [EXIT_FAILURE] after one diagnostic, without a single
    read: the buffer is as it was allocated and the diagnostic is all that
    was printed, whatever the reads would have delivered.  Otherwise it
    loops: it returns -1 at the first failed read, having printed three
    blocks for each read before it and one diagnostic, and keeps running
    as long as no read fails; the buffer holds what the reads before the
    first failure stored and nothing of what follows.  It never returns
    0: the statements after the loop are not reached. *)
Theorem main_outcome
  (e : byte_order) (raw_socket : Z) (heap : list byte)
  (rs : list recv_result) :
  let r := main e raw_socket heap rs in
  fst r =
    (if raw_socket <? 0 then Exited EXIT_FAILURE
     else if existsb is_error rs then Returned (-1) else Running) /\
  fst r <> Returned 0 /\
  List.length (trace (snd r)) =
    (if (raw_socket <? 0)%Z then 1
     else 3 * reads_before_failure rs +
          (if existsb is_error rs then 1 else 0))%nat /\
  List.length (diagnostics (trace (snd r))) =
    (if (raw_socket <? 0)%Z then 1
     else if existsb is_error rs then 1 else 0)%nat /\
  (if raw_socket <? 0 then
     snd r =
       {| buffer := heap;
          trace := [Stderr ("Failed to create raw socket" ++ newline)%string] |}
   else
     buffer (snd r) =
       fold_left (fun buf data => received data buf)
                 (frames_before_failure rs) heap).
Proof.
  intros r. subst r. unfold main.
  destruct (raw_socket <? 0).
  - cbn. repeat apply conj; try reflexivity. discriminate.
  - destruct (main_loop_status e rs {| buffer := heap; trace := [] |})
      as [Hst Hlen].
    rewrite Hst, Hlen, main_loop_diagnostics, main_loop_buffer.
    cbn [buffer trace diagnostics List.length Nat.add].
    repeat apply conj; try reflexivity.
    destruct (existsb is_error rs); discriminate.
Qed.
